(** * A shallow embedding of [unha2/client.py]

    The realtime client of [unha2]: the client data and login
    ([ClientData], [ClientAPI.login]), the inbound handler loop of
    [Client] with its stop flag, the event registry of [EventClient]
    ([event], [add_cb], [del_cb], [parse]) run on an asyncio-style ready
    queue, and the error path of [OverrideClient]
    ([on_error], [on_too_many_requests]). *)

From Stdlib Require Import ZArith.
From stdpp Require Import base gmap strings list.

Open Scope Z_scope.
Set Warnings "-register-all".

(* ------------------------------------------------------------------ *)
(** ** Python values *)

(** JSON-like Python values, as decoded from the websocket. *)
Inductive json : Type :=
| JNull : json                         (* None *)
| JBool : bool -> json
| JInt : Z -> json
| JStr : string -> json
| JList : list json -> json
| JObj : list (string * json) -> json. (* dict, in insertion order *)

(** [bool(v)]: Python truthiness. *)
Definition truthy (v : json) : bool :=
  match v with
  | JNull => false
  | JBool b => b
  | JInt z => negb (Z.eqb z 0)
  | JStr s => negb (String.eqb s "")
  | JList l => negb (Nat.eqb (length l) 0)
  | JObj kvs => negb (Nat.eqb (length kvs) 0)
  end.

Fixpoint assoc_get (k : string) (kvs : list (string * json)) : option json :=
  match kvs with
  | [] => None
  | (k', v) :: rest => if String.eqb k k' then Some v else assoc_get k rest
  end.

(** [v[k]] on a dict; [None] is the [KeyError] (or [TypeError] on a
    non-dict). *)
Definition jget (v : json) (k : string) : option json :=
  match v with
  | JObj kvs => assoc_get k kvs
  | _ => None
  end.

(** [int(v)] on the integer-valued inputs; [None] where the conversion
    is not modelled (or raises). *)
Definition py_int (v : json) : option Z :=
  match v with
  | JInt z => Some z
  | JBool b => Some (if b then 1 else 0)
  | _ => None
  end.

(* ------------------------------------------------------------------ *)
(** ** [ClientData] and [ClientAPI.login] *)

Record ClientData := mkClientData {
  server : string;
  username : string;
  password : string;
  token : json;
  session : json;
  user_id : json;
  token_expires : json
}.

(** [ClientData.__init__] *)
Definition ClientData_init (srv usr pwd : string) : ClientData :=
  {| server := srv; username := usr; password := pwd;
     token := JStr ""; session := JStr ""; user_id := JStr "";
     token_expires := JNull |}.

Definition set_token (d : ClientData) (v : json) : ClientData :=
  {| server := server d; username := username d; password := password d;
     token := v; session := session d; user_id := user_id d;
     token_expires := token_expires d |}.

Definition set_token_expires (d : ClientData) (v : json) : ClientData :=
  {| server := server d; username := username d; password := password d;
     token := token d; session := session d; user_id := user_id d;
     token_expires := v |}.

Definition set_user_id (d : ClientData) (v : json) : ClientData :=
  {| server := server d; username := username d; password := password d;
     token := token d; session := session d; user_id := v;
     token_expires := token_expires d |}.

(** The part of [ClientAPI.login] after [res = await methods.login_sha256(...)]:
    the three assignments, in order. The boolean is [true] when a
    [KeyError] escapes, after the assignments done so far. *)
Definition login_store (d : ClientData) (res : json) : ClientData * bool :=
  match jget res "token" with
  | None => (d, true)
  | Some t =>
      let d1 := set_token d t in
      match jget res "expires" with
      | None => (d1, true)
      | Some e =>
          let d2 := set_token_expires d1 e in
          match jget res "user_id" with
          | None => (d2, true)
          | Some u => (set_user_id d2 u, false)
          end
      end
  end.

(* ------------------------------------------------------------------ *)
(** ** Message classification *)

(** Modelled from the spec: [RawMessageType] (unha2.model.base) and the
    classifier [parse.base.msg_type] (unha2.parse.base), neither under
    src/. The kinds are those listed by the spec; a message without a
    ["msg"] field is the connection-opened message ([NONE]); anything
    unrecognised is [UNKNOWN]. *)
Inductive RawMessageType :=
| NONE | PING | PONG | CONNECTED | RESULT | READY
| ADDED | CHANGED | UPDATED | REMOVED | FAILED | UNKNOWN.

Definition msg_type (m : json) : RawMessageType :=
  match jget m "msg" with
  | None => NONE
  | Some (JStr s) =>
      if String.eqb s "ping" then PING
      else if String.eqb s "pong" then PONG
      else if String.eqb s "connected" then CONNECTED
      else if String.eqb s "result" then RESULT
      else if String.eqb s "ready" then READY
      else if String.eqb s "added" then ADDED
      else if String.eqb s "changed" then CHANGED
      else if String.eqb s "updated" then UPDATED
      else if String.eqb s "removed" then REMOVED
      else if String.eqb s "failed" then FAILED
      else UNKNOWN
  | Some _ => UNKNOWN
  end.

(* ------------------------------------------------------------------ *)
(** ** [Client]: stop flag and [handler_loop] *)

(** The work [handler_loop] hands off for one classified message
    ([asyncio.ensure_future(...)] or the synchronous [on_result] and
    [recv_ready] calls). *)
Inductive dispatch :=
| DConnect                               (* do_connect() *)
| DPong                                  (* send_pong() *)
| DLogin                                 (* do_login() *)
| DResult (m : json)                     (* on_result(msg) *)
| DReady (m : json)                      (* _holder.recv_ready(msg) *)
| DParse (m : json) (t : RawMessageType). (* parse(msg, msgtype) *)

(** The state of a [Client] seen by the handler loop: [_stop], the
    inbound [_queue], the [session] attribute (unset at first), the
    messages passed to [msg_type] and the work handed off, in order. *)
Record Client := mkClient {
  c_stop : bool;
  c_queue : list json;
  c_session : option json;
  c_classified : list json;
  c_dispatched : list dispatch
}.

Definition Client_init : Client :=
  {| c_stop := false; c_queue := []; c_session := None;
     c_classified := []; c_dispatched := [] |}.

(** [_queue.put_nowait(m)] *)
Definition put_nowait (m : json) (c : Client) : Client :=
  {| c_stop := c_stop c; c_queue := c_queue c ++ [m];
     c_session := c_session c; c_classified := c_classified c;
     c_dispatched := c_dispatched c |}.

(** The [stop] property setter. *)
Definition set_stop (value : json) (c : Client) : Client :=
  if truthy value then
    put_nowait JNull
      {| c_stop := true; c_queue := c_queue c; c_session := c_session c;
         c_classified := c_classified c; c_dispatched := c_dispatched c |}
  else c.

(** Where [handler_loop] is: about to test [while not self.stop], at
    [await self._queue.get()], returned, or ended by an exception. *)
Inductive pc := LCheck | LGet | LDone | LCrashed.

Definition with_queue (c : Client) (q : list json) : Client :=
  {| c_stop := c_stop c; c_queue := q; c_session := c_session c;
     c_classified := c_classified c; c_dispatched := c_dispatched c |}.

Definition classify (c : Client) (m : json) : Client :=
  {| c_stop := c_stop c; c_queue := c_queue c; c_session := c_session c;
     c_classified := c_classified c ++ [m]; c_dispatched := c_dispatched c |}.

Definition dispatch_to (c : Client) (d : dispatch) : Client :=
  {| c_stop := c_stop c; c_queue := c_queue c; c_session := c_session c;
     c_classified := c_classified c; c_dispatched := c_dispatched c ++ [d] |}.

Definition with_session (c : Client) (s : json) : Client :=
  {| c_stop := c_stop c; c_queue := c_queue c; c_session := Some s;
     c_classified := c_classified c; c_dispatched := c_dispatched c |}.

(** One step of [handler_loop]; [None] when the loop is blocked on an
    empty queue or has ended. The session is read as
    [parse.connected.parse(msg)['session']], modelled as [msg['session']]. *)
Definition loop_step (s : pc * Client) : option (pc * Client) :=
  let '(p, c) := s in
  match p with
  | LCheck => Some (if c_stop c then LDone else LGet, c)
  | LGet =>
      match c_queue c with
      | [] => None
      | m :: q =>
          let c := with_queue c q in
          if negb (truthy m) then Some (LCheck, c)
          else
            let t := msg_type m in
            let c := classify c m in
            match t with
            | NONE => Some (LCheck, dispatch_to c DConnect)
            | PING => Some (LCheck, dispatch_to c DPong)
            | CONNECTED =>
                match jget m "session" with
                | Some sid => Some (LCheck, dispatch_to (with_session c sid) DLogin)
                | None => Some (LCrashed, c)
                end
            | RESULT => Some (LCheck, dispatch_to c (DResult m))
            | READY => Some (LCheck, dispatch_to c (DReady m))
            | _ => Some (LCheck, dispatch_to c (DParse m t))
            end
      end
  | LDone | LCrashed => None
  end.

(** Run the loop for at most [fuel] steps. *)
Fixpoint run_loop (fuel : nat) (s : pc * Client) : pc * Client :=
  match fuel with
  | O => s
  | S n => match loop_step s with
           | None => s
           | Some s' => run_loop n s'
           end
  end.

(* ------------------------------------------------------------------ *)
(** ** [EventClient]: the callback registry and the ready queue *)

(** A callback is named by a number; Python's [==] on callables is this
    identity. Running a callback's body may register or remove
    callbacks ([add_cb] / [del_cb] calls made from inside it). *)
Inductive action :=
| AddCb (name : string) (cb : nat)
| DelCb (name : string) (cb : nat).

(** [self.callbacks], a [defaultdict(list)]. *)
Abbreviation registry := (gmap string (list nat)).

(** [self.callbacks[name]] as read: the list, [[]] when absent. *)
Definition listeners (reg : registry) (name : string) : list nat :=
  default [] (reg !! name).

(** [self.callbacks[name]] on a defaultdict: inserts [[]] when absent. *)
Definition cb_getitem (reg : registry) (name : string) : list nat * registry :=
  match reg !! name with
  | Some l => (l, reg)
  | None => ([], <[name := []]> reg)
  end.

(** [list.remove(x)]: drops the first [x]; [None] is the [ValueError]. *)
Fixpoint list_remove (x : nat) (l : list nat) : option (list nat) :=
  match l with
  | [] => None
  | y :: l' =>
      if Nat.eqb x y then Some l'
      else match list_remove x l' with
           | Some r => Some (y :: r)
           | None => None
           end
  end.

(** [EventClient.add_cb] *)
Definition add_cb (reg : registry) (name : string) (cb : nat) : registry :=
  let '(l, reg) := cb_getitem reg name in
  <[name := l ++ [cb]]> reg.

(** [EventClient.del_cb]: the [ValueError] of [remove] is caught. *)
Definition del_cb (reg : registry) (name : string) (cb : nat) : bool * registry :=
  let '(l, reg) := cb_getitem reg name in
  match list_remove cb l with
  | Some l' => (true, <[name := l']> reg)
  | None => (false, reg)
  end.

(** [EventClient.__init__]: the five built-in callbacks, numbered 0..4
    ([self.added], [self.failed], [self.changed], [self.updated],
    [self.removed]). *)
Definition callbacks_init : registry :=
  <["added" := [0%nat]]> (<["failed" := [1%nat]]> (<["changed" := [2%nat]]>
  (<["updated" := [3%nat]]> (<["removed" := [4%nat]]> ∅)))).

(** Entries of the asyncio ready queue. [JTask cb data] is
    [asyncio.ensure_future(cb(data))]: the coroutine object is built with
    the current [cb]. [JCallSoon f] is [call_soon(lambda: cb(data))]: the
    lambda closes over the variables [cb] and [data] of the [event] call
    [f], read only when it runs. *)
Inductive job :=
| JTask (cb : nat) (data : json)
| JCallSoon (frame : nat).

(** The event-loop state: the registry, the ready queue, the closure
    cells of every [event] call so far (its [cb] and [data]), and the
    trace of callback bodies run, with their argument. *)
Record EvState := mkEvState {
  callbacks : registry;
  ready : list job;
  frames : list (option nat * json);
  trace : list (nat * json)
}.

Section EventLoop.

(** [asyncio.iscoroutinefunction(cb)] *)
Variable cb_async : nat -> bool.
(** The registry calls made by the body of [cb]. *)
Variable cb_body : nat -> list action.

(** The [for cb in self.callbacks[name]] loop of [EventClient.event]:
    [cell] is the loop variable [cb] of frame [f]. *)
Fixpoint event_loop (f : nat) (data : json) (cbs : list nat)
    (cell : option nat) (q : list job) : option nat * list job :=
  match cbs with
  | [] => (cell, q)
  | cb :: rest =>
      let q := if cb_async cb then q ++ [JTask cb data] else q ++ [JCallSoon f] in
      event_loop f data rest (Some cb) q
  end.

(** [EventClient.event(name, data)]: a new frame [f] whose cell holds,
    after the loop, the last callback iterated. *)
Definition event (name : string) (data : json) (st : EvState) : EvState :=
  let '(cbs, reg) := cb_getitem (callbacks st) name in
  let f := length (frames st) in
  let '(cell, q) := event_loop f data cbs None (ready st) in
  {| callbacks := reg; ready := q;
     frames := frames st ++ [(cell, data)]; trace := trace st |}.

Definition apply_action (reg : registry) (a : action) : registry :=
  match a with
  | AddCb n cb => add_cb reg n cb
  | DelCb n cb => snd (del_cb reg n cb)
  end.

(** Running the body of [cb] on [data]. *)
Definition invoke (cb : nat) (data : json) (st : EvState) : EvState :=
  {| callbacks := fold_left apply_action (cb_body cb) (callbacks st);
     ready := ready st; frames := frames st;
     trace := trace st ++ [(cb, data)] |}.

(** One turn of the loop on job [j] (already dequeued). A lambda whose
    [cb] is a coroutine function only builds a coroutine object, never
    awaited: no body runs. *)
Definition run_job (j : job) (st : EvState) : EvState :=
  match j with
  | JTask cb data => invoke cb data st
  | JCallSoon f =>
      match frames st !! f with
      | Some (Some cb, data) => if cb_async cb then st else invoke cb data st
      | _ => st
      end
  end.

Definition pop (st : EvState) : option (job * EvState) :=
  match ready st with
  | [] => None
  | j :: q => Some (j, {| callbacks := callbacks st; ready := q;
                          frames := frames st; trace := trace st |})
  end.

(** Drain the ready queue, at most [fuel] jobs. *)
Fixpoint run_ready (fuel : nat) (st : EvState) : EvState :=
  match fuel with
  | O => st
  | S n => match pop st with
           | None => st
           | Some (j, st') => run_ready n (run_job j st')
           end
  end.

(** A fire pass: [event(name, data)] followed by the loop running the
    work it scheduled (and anything that work schedules). *)
Definition fire_pass (fuel : nat) (name : string) (data : json) (st : EvState) : EvState :=
  run_ready fuel (event name data st).

(** [EventClient.parse(msg, msgtype)] *)
Definition parse (msg : json) (t : RawMessageType) (st : EvState) : EvState :=
  match t with
  | ADDED => event "added" msg st
  | CHANGED => event "changed" msg st
  | UPDATED => event "updated" msg st
  | REMOVED => event "removed" msg st
  | FAILED => event "failed" msg st
  | _ => st
  end.

End EventLoop.

Definition EvState_init : EvState :=
  {| callbacks := callbacks_init; ready := []; frames := []; trace := [] |}.

(* ------------------------------------------------------------------ *)
(** ** Results, server errors and [OverrideClient.on_error] *)

(** Observable effects of the result and error paths. *)
Inductive effect :=
| ESleep (ms : Z)                 (* asyncio.sleep(ms * 0.001) *)
| ESendMsg (rid text : json)      (* api.send_msg(rid, text) *)
| EResolveOk (id : string) (v : json)
| EResolveErr (id : string) (kind payload request : json)
| EUnknownId (id : json).

(** A coroutine run to its end: its effects, and whether it ended by an
    exception (swallowed by its task). *)
Record Outcome := mkOutcome { out_effects : list effect; out_raised : bool }.

(** Modelled from the spec: [ErrorType.TOO_MANY_REQUESTS.value]
    (unha2.model.base, not under src/), the server's error kind for a
    rate-limited request. *)
Definition TOO_MANY_REQUESTS_value : string := "too-many-requests".

(** [OverrideClient.on_too_many_requests] *)
Definition on_too_many_requests (error_result recover_message : json) : Outcome :=
  match jget error_result "error" with
  | None => mkOutcome [] true
  | Some e =>
  match jget e "details" with
  | None => mkOutcome [] true
  | Some d =>
  match jget d "timeToReset" with
  | None => mkOutcome [] true
  | Some ttr =>
  match py_int ttr with
  | None => mkOutcome [] true
  | Some t =>
      match jget recover_message "rid" with
      | None => mkOutcome [ESleep t] true
      | Some room_id =>
          match jget recover_message "msg" with
          | None => mkOutcome [ESleep t] true
          | Some text => mkOutcome [ESleep t; ESendMsg room_id text] false
          end
      end
  end end end end.

(** [errortype == ErrorType.TOO_MANY_REQUESTS.value] *)
Definition is_too_many (errortype : json) : bool :=
  match errortype with
  | JStr s => String.eqb s TOO_MANY_REQUESTS_value
  | _ => false
  end.

(** [OverrideClient.on_error] *)
Definition on_error (errortype error_result recover_message : json) : Outcome :=
  if is_too_many errortype then on_too_many_requests error_result recover_message
  else mkOutcome [] false.

(** The [ServerException] raised by [recv_result]: its [error_message],
    [error_result] and [recover_message]. *)
Record ServerException := mkServerException {
  error_message : json; error_result : json; recover_message : json }.

(** Modelled from the spec: [AsyncHolder.recv_result] (unha2.holder, not
    under src/), the call correlator's resolution of a [Result] message.
    [pending] maps each outstanding call id to its original request. An
    unknown id is logged and dropped; a message with an ["error"] field
    removes the entry, fails the caller with the error kind, payload and
    original request, and raises [ServerException]; otherwise the entry
    is removed and the caller gets the ["result"] field. *)
Definition recv_result (pending : gmap string json) (msg : json)
    : gmap string json * list effect * option ServerException :=
  match jget msg "id" with
  | Some (JStr i) =>
      match pending !! i with
      | None => (pending, [EUnknownId (JStr i)], None)
      | Some req =>
          match jget msg "error" with
          | Some err =>
              let kind := default JNull (jget err "error") in
              (delete i pending, [EResolveErr i kind msg req],
               Some (mkServerException kind msg req))
          | None =>
              (delete i pending, [EResolveOk i (default JNull (jget msg "result"))], None)
          end
      end
  | Some other => (pending, [EUnknownId other], None)
  | None => (pending, [EUnknownId JNull], None)
  end.

(** [Client.on_result] followed by the [on_error] task it schedules,
    run to its end: the table after, and all effects in order. *)
Definition on_result (pending : gmap string json) (msg : json)
    : gmap string json * list effect :=
  let '(p, effs, exn) := recv_result pending msg in
  match exn with
  | None => (p, effs)
  | Some e =>
      (p, effs ++ out_effects (on_error (error_message e) (error_result e)
                                         (recover_message e)))
  end.

(* ================================================================== *)
(** * Properties *)

(* ------------------------------------------------------------------ *)
(** ** Supporting lemmas *)

Lemma list_remove_absent (x : nat) (l : list nat) :
  ~ In x l -> list_remove x l = None.
Proof.
  induction l as [|y l IH]; simpl; intros H; [reflexivity|].
  destruct (Nat.eqb x y) eqn:E.
  - apply Nat.eqb_eq in E. subst. exfalso. auto.
  - rewrite IH; auto.
Qed.

Lemma list_remove_present (x : nat) (l : list nat) :
  In x l -> exists l', list_remove x l = Some l'.
Proof.
  induction l as [|y l IH]; simpl; intros H; [contradiction|].
  destruct (Nat.eqb x y) eqn:E; [eauto|].
  apply Nat.eqb_neq in E.
  destruct H as [H|H]; [congruence|].
  destruct (IH H) as [l' ->]. eauto.
Qed.

Lemma list_remove_first (x : nat) (l l' : list nat) :
  list_remove x l = Some l' ->
  exists pre post, l = pre ++ x :: post /\ ~ In x pre /\ l' = pre ++ post.
Proof.
  revert l'. induction l as [|y l IH]; simpl; intros l' H; [discriminate|].
  destruct (Nat.eqb x y) eqn:E.
  - apply Nat.eqb_eq in E. subst. injection H as <-.
    exists [], l. simpl. auto.
  - apply Nat.eqb_neq in E.
    destruct (list_remove x l) as [r|] eqn:R; [|discriminate].
    injection H as <-.
    destruct (IH r eq_refl) as (pre & post & -> & Hpre & ->).
    exists (y :: pre), post. simpl. split; [reflexivity|]. split; [|reflexivity].
    intros [H|H]; [congruence|auto].
Qed.

Lemma listeners_getitem (reg : registry) (name m : string) :
  listeners (snd (cb_getitem reg name)) m = listeners reg m.
Proof.
  unfold cb_getitem, listeners. destruct (reg !! name) eqn:E; [reflexivity|].
  simpl. destruct (decide (name = m)) as [<-|Hne].
  - rewrite lookup_insert_eq, E. reflexivity.
  - rewrite lookup_insert_ne by exact Hne. reflexivity.
Qed.

Lemma fst_getitem (reg : registry) (name : string) :
  fst (cb_getitem reg name) = listeners reg name.
Proof. unfold cb_getitem, listeners. by destruct (reg !! name). Qed.

Lemma listeners_insert_ne (reg : registry) (n m : string) (l : list nat) :
  m <> n -> listeners (<[n := l]> reg) m = listeners reg m.
Proof. intros H. unfold listeners. rewrite lookup_insert_ne by congruence. reflexivity. Qed.

Lemma listeners_insert_eq (reg : registry) (n : string) (l : list nat) :
  listeners (<[n := l]> reg) n = l.
Proof. unfold listeners. rewrite lookup_insert_eq. reflexivity. Qed.

(** The work left on the ready queue, the closure cells and the trace do
    not depend on the registry: what a fire pass runs is fixed when
    [event] returns. *)
Definition with_callbacks (st : EvState) (reg : registry) : EvState :=
  {| callbacks := reg; ready := ready st; frames := frames st; trace := trace st |}.

Definition sched_view (st : EvState) := (ready st, frames st, trace st).

Lemma run_job_callbacks_view (async : nat -> bool) (body : nat -> list action)
    (j : job) (st : EvState) (reg : registry) :
  run_job async body j (with_callbacks st reg)
  = with_callbacks (run_job async body j st)
      (callbacks (run_job async body j (with_callbacks st reg))).
Proof.
  destruct j as [cb d|f]; simpl; [reflexivity|].
  destruct (frames st !! f) as [[[cb|] d]|]; simpl; try reflexivity.
  destruct (async cb); reflexivity.
Qed.

Lemma run_ready_registry_indep (async : nat -> bool) (body : nat -> list action)
    (fuel : nat) (st : EvState) (reg : registry) :
  sched_view (run_ready async body fuel (with_callbacks st reg))
  = sched_view (run_ready async body fuel st).
Proof.
  revert st reg. induction fuel as [|n IH]; intros st reg; simpl; [reflexivity|].
  unfold pop. simpl. destruct (ready st) as [|j q] eqn:R; simpl; [reflexivity|].
  set (st0 := {| callbacks := callbacks st; ready := q; frames := frames st; trace := trace st |}).
  change {| callbacks := reg; ready := q; frames := frames st; trace := trace st |}
    with (with_callbacks st0 reg).
  rewrite run_job_callbacks_view, IH. reflexivity.
Qed.

(* ------------------------------------------------------------------ *)
(** ** [EventClient.event]: delivery of a fire pass *)

(** Callbacks that are plain functions (as the built-in [self.added],
    ...) and whose bodies touch no registry. *)
Definition all_plain (_ : nat) : bool := false.
Definition no_actions (_ : nat) : list action := [].

(** An [EventClient] after [add_cb('x', f)] and [add_cb('x', g)], with
    [f] numbered 5 and [g] numbered 6. *)
Definition two_listeners : EvState :=
  {| callbacks := add_cb (add_cb callbacks_init "x" 5) "x" 6;
     ready := []; frames := []; trace := [] |}.

(** C1 (failing input): firing ["x"] with payload [7] when [f] then [g]
    are registered runs [g] twice and [f] never: each
    [lambda: cb(data)] reads the loop variable [cb] after the loop has
    left it on the last callback. *)
Theorem event_runs_last_callback_for_every_listener :
  listeners (callbacks two_listeners) "x" = [5%nat; 6%nat] /\
  trace (fire_pass all_plain no_actions 10 "x" (JInt 7) two_listeners)
  = [(6%nat, JInt 7); (6%nat, JInt 7)].
Proof. split; vm_compute; reflexivity. Qed.

(** Callback 5 registers callbacks 6 and 7 under ["x"] when it runs. *)
Definition registering_body (n : nat) : list action :=
  if Nat.eqb n 5 then [AddCb "x" 6; AddCb "x" 7] else [].

Definition one_registering_listener : EvState :=
  {| callbacks := add_cb callbacks_init "x" 5;
     ready := []; frames := []; trace := [] |}.

(** C4 (failing input): callbacks 6 and 7 added during the first pass
    are not run by it (the pass is fixed when [event] returns, see
    [run_ready_registry_indep]), but the next pass runs 7 three times
    and never runs 6. *)
Theorem listener_added_during_pass_missed_next_pass :
  let s1 := fire_pass all_plain registering_body 10 "x" (JInt 1) one_registering_listener in
  let s2 := fire_pass all_plain registering_body 10 "x" (JInt 2) s1 in
  trace s1 = [(5%nat, JInt 1)] /\
  listeners (callbacks s1) "x" = [5%nat; 6%nat; 7%nat] /\
  trace s2 = [(5%nat, JInt 1); (7%nat, JInt 2); (7%nat, JInt 2); (7%nat, JInt 2)].
Proof. vm_compute. repeat split. Qed.

(* ------------------------------------------------------------------ *)
(** ** [EventClient.del_cb] *)

(** C6: [del_cb] never raises; for an absent callback it returns
    [False] and every listener list reads as before; otherwise it
    removes the first occurrence under [name], returns [True], and the
    lists under the other names read as before. *)
Theorem del_cb_spec (reg : registry) (name : string) (cb : nat) :
  let '(ok, reg') := del_cb reg name cb in
  (forall m, m <> name -> listeners reg' m = listeners reg m) /\
  ((~ In cb (listeners reg name) /\ ok = false /\
    listeners reg' name = listeners reg name) \/
   (exists pre post, listeners reg name = pre ++ cb :: post /\ ~ In cb pre /\
      ok = true /\ listeners reg' name = pre ++ post)).
Proof.
  unfold del_cb.
  pose proof (listeners_getitem reg name) as Hg.
  pose proof (fst_getitem reg name) as Hf.
  destruct (cb_getitem reg name) as [l reg1]. simpl in Hg, Hf. subst l.
  destruct (list_remove cb (listeners reg name)) as [l'|] eqn:R.
  - split.
    + intros m Hm. rewrite listeners_insert_ne by exact Hm. apply Hg.
    + right. destruct (list_remove_first _ _ _ R) as (pre & post & Hl & Hpre & ->).
      exists pre, post. rewrite listeners_insert_eq. auto.
  - split.
    + intros m _. apply Hg.
    + left. split; [|split; [reflexivity|apply Hg]].
      intros Hin. destruct (list_remove_present _ _ Hin) as [l' R'].
      congruence.
Qed.

Lemma del_cb_spec_witness :
  del_cb callbacks_init "x" 9 = (false, <["x" := []]> callbacks_init) /\
  listeners (snd (del_cb callbacks_init "x" 9)) "added" = [0%nat].
Proof.
  split; [vm_compute; reflexivity|].
  pose proof (del_cb_spec callbacks_init "x" 9) as H.
  destruct (del_cb callbacks_init "x" 9) as [ok reg'] eqn:E.
  destruct H as [Hother _]. simpl.
  rewrite (Hother "added") by discriminate. vm_compute. reflexivity.
Defined.

(* ------------------------------------------------------------------ *)
(** ** [EventClient.parse] *)

(** C8: [parse] on a message type other than ADDED, CHANGED, UPDATED,
    REMOVED and FAILED fires no event and leaves the state as it was. *)
Theorem parse_other_type_noop (async : nat -> bool) (msg : json)
    (t : RawMessageType) (st : EvState) :
  t <> ADDED -> t <> CHANGED -> t <> UPDATED -> t <> REMOVED -> t <> FAILED ->
  parse async msg t st = st.
Proof. intros. destruct t; simpl; congruence. Qed.

Lemma parse_other_type_noop_witness :
  parse all_plain (JObj [("msg", JStr "nosub")]) UNKNOWN EvState_init = EvState_init.
Proof. apply parse_other_type_noop; discriminate. Defined.

(* ------------------------------------------------------------------ *)
(** ** [Client.stop] and [Client.handler_loop] *)

(** Messages the network loop enqueues, in order. *)
Definition put_all (ms : list json) (c : Client) : Client :=
  fold_left (fun c m => put_nowait m c) ms c.

Lemma put_all_fields (ms : list json) (c : Client) :
  put_all ms c = {| c_stop := c_stop c; c_queue := c_queue c ++ ms;
                    c_session := c_session c; c_classified := c_classified c;
                    c_dispatched := c_dispatched c |}.
Proof.
  revert c. induction ms as [|m ms IH]; intros c; simpl.
  - destruct c; simpl. rewrite app_nil_r. reflexivity.
  - unfold put_all in IH. rewrite IH. simpl. rewrite <- app_assoc. reflexivity.
Qed.

(** C3: setting [stop] to a truthy value sets the flag and enqueues
    [None]; a loop blocked on the empty queue then takes the sentinel,
    skips it, sees the flag and returns, whatever is enqueued after it:
    nothing more is classified or handed off. *)
Theorem stop_wakes_blocked_loop (v : json) (c : Client) (ms : list json) (fuel : nat) :
  truthy v = true -> c_queue c = [] -> (2 <= fuel)%nat ->
  c_stop (set_stop v c) = true /\ c_queue (set_stop v c) = [JNull] /\
  run_loop fuel (LGet, put_all ms (set_stop v c))
  = (LDone, {| c_stop := true; c_queue := ms; c_session := c_session c;
               c_classified := c_classified c; c_dispatched := c_dispatched c |}).
Proof.
  intros Hv Hq Hf. unfold set_stop. rewrite Hv. simpl. rewrite Hq.
  split; [reflexivity|]. split; [reflexivity|].
  rewrite put_all_fields. simpl.
  destruct fuel as [|[|n]]; [lia|lia|]. simpl.
  destruct n; reflexivity.
Qed.

Lemma stop_wakes_blocked_loop_witness :
  run_loop 5 (LGet, put_all [JObj [("msg", JStr "ping")]] (set_stop (JBool true) Client_init))
  = (LDone, {| c_stop := true; c_queue := [JObj [("msg", JStr "ping")]];
               c_session := None; c_classified := []; c_dispatched := [] |}).
Proof.
  apply (stop_wakes_blocked_loop (JBool true) Client_init _ 5);
    [reflexivity | reflexivity | lia].
Defined.

Lemma loop_step_classified_truthy (s s' : pc * Client) :
  loop_step s = Some s' ->
  (forall x, In x (c_classified (snd s)) -> truthy x = true) ->
  forall x, In x (c_classified (snd s')) -> truthy x = true.
Proof.
  destruct s as [p c]. intros Hs Hinv.
  destruct p; simpl in Hs; try discriminate.
  - injection Hs as <-. exact Hinv.
  - destruct (c_queue c) as [|m q]; [discriminate|].
    destruct (truthy m) eqn:Tm; simpl in Hs.
    + assert (Hc : forall x, In x (c_classified (classify (with_queue c q) m)) ->
                             truthy x = true).
      { simpl. intros x Hx. apply in_app_or in Hx as [Hx|[<-|[]]]; auto. }
      destruct (msg_type m); try (injection Hs as <-; exact Hc).
      destruct (jget m "session"); injection Hs as <-; exact Hc.
    + injection Hs as <-. exact Hinv.
Qed.

(** C9: a falsy message taken from the queue is dropped before
    [msg_type] and the loop goes back to its test; hence every message
    ever classified is truthy, and the sentinel [None] never is. *)
Theorem falsy_message_skipped :
  (forall (c : Client) (m : json) (q : list json),
      c_queue c = m :: q -> truthy m = false ->
      loop_step (LGet, c) = Some (LCheck, with_queue c q)) /\
  (forall (fuel : nat) (s : pc * Client),
      (forall x, In x (c_classified (snd s)) -> truthy x = true) ->
      (forall x, In x (c_classified (snd (run_loop fuel s))) -> truthy x = true) /\
      ~ In JNull (c_classified (snd (run_loop fuel s)))).
Proof.
  split.
  - intros c m q Hq Hm. simpl. rewrite Hq, Hm. reflexivity.
  - intros fuel. induction fuel as [|n IH]; intros s Hinv; simpl.
    + split; [exact Hinv|]. intros H. apply Hinv in H. discriminate.
    + destruct (loop_step s) as [s'|] eqn:E.
      * apply IH. exact (loop_step_classified_truthy s s' E Hinv).
      * split; [exact Hinv|]. intros H. apply Hinv in H. discriminate.
Qed.

Lemma falsy_message_skipped_witness :
  loop_step (LGet, with_queue Client_init [JObj []; JInt 1])
  = Some (LCheck, with_queue Client_init [JInt 1]) /\
  ~ In JNull (c_classified (snd (run_loop 10 (LCheck,
      put_all [JNull; JObj [("msg", JStr "ping")]; JStr ""] Client_init)))).
Proof.
  split.
  - exact (proj1 falsy_message_skipped (with_queue Client_init [JObj []; JInt 1])
             (JObj []) [JInt 1] eq_refl eq_refl).
  - apply (proj2 falsy_message_skipped 10%nat). simpl. intros x [].
Defined.

(** C10: a falsy assignment to [stop] changes nothing (flag and queue);
    after [stop] is [True] no assignment makes it [False]. *)
Theorem stop_monotone (v : json) (c : Client) :
  (truthy v = false -> set_stop v c = c) /\
  (c_stop c = true -> c_stop (set_stop v c) = true).
Proof.
  unfold set_stop. split; intros H.
  - rewrite H. reflexivity.
  - destruct (truthy v); simpl; [reflexivity|exact H].
Qed.

Lemma stop_monotone_witness :
  set_stop (JInt 0) Client_init = Client_init /\
  c_stop (set_stop (JStr "") (set_stop (JInt 1) Client_init)) = true.
Proof.
  split.
  - apply (proj1 (stop_monotone (JInt 0) Client_init)). reflexivity.
  - apply (proj2 (stop_monotone (JStr "") (set_stop (JInt 1) Client_init))).
    reflexivity.
Defined.

(* ------------------------------------------------------------------ *)
(** ** [ClientAPI.login] *)

(** A login result carrying a session id besides token, expiry and
    user id. *)
Definition login_result_with_session : json :=
  JObj [("token", JStr "tok"); ("expires", JInt 1700000000);
        ("user_id", JStr "uid"); ("session", JStr "sess")].

(** C7 (counterexample): the session of the login result is not
    captured: [ClientData.session] stays [''] while the result's
    ["session"] is ["sess"]. *)
Lemma login_does_not_capture_session :
  let '(d, raised) := login_store (ClientData_init "wss://chat" "alice" "pw")
                                  login_result_with_session in
  raised = false /\ session d = JStr "" /\
  jget login_result_with_session "session" = Some (JStr "sess").
Proof. vm_compute. repeat split. Qed.

(** C7 (as amended): once the login result arrives with ["token"],
    ["expires"] and ["user_id"], [login] sets [token], [token_expires]
    and [user_id] from them and leaves [server], [username], [password]
    and [session] as they were. *)
Theorem login_store_spec (d : ClientData) (res t e u : json) :
  jget res "token" = Some t -> jget res "expires" = Some e ->
  jget res "user_id" = Some u ->
  login_store d res =
    ({| server := server d; username := username d; password := password d;
        token := t; session := session d; user_id := u; token_expires := e |},
     false).
Proof. intros Ht He Hu. unfold login_store. rewrite Ht, He, Hu. reflexivity. Qed.

Lemma login_store_spec_witness :
  login_store (ClientData_init "wss://chat" "alice" "pw") login_result_with_session =
    ({| server := "wss://chat"; username := "alice"; password := "pw";
        token := JStr "tok"; session := JStr ""; user_id := JStr "uid";
        token_expires := JInt 1700000000 |}, false).
Proof. apply login_store_spec; reflexivity. Defined.

(* ------------------------------------------------------------------ *)
(** ** [OverrideClient.on_error] *)

(** C2: for a [TOO_MANY_REQUESTS] error whose result carries
    [error.details.timeToReset = t] and whose recover message has a
    ["rid"] and a ["msg"], [on_error] sleeps [t] milliseconds, then sends
    that text to that room once, and does nothing else (in particular
    resolves no call). *)
Theorem on_error_too_many_requests
    (error_result e d recover rid text : json) (t : Z) :
  jget error_result "error" = Some e -> jget e "details" = Some d ->
  jget d "timeToReset" = Some (JInt t) ->
  jget recover "rid" = Some rid -> jget recover "msg" = Some text ->
  on_error (JStr TOO_MANY_REQUESTS_value) error_result recover
  = mkOutcome [ESleep t; ESendMsg rid text] false.
Proof.
  intros He Hd Ht Hr Hm. unfold on_error, on_too_many_requests. simpl.
  rewrite He, Hd, Ht. simpl. rewrite Hr, Hm. reflexivity.
Qed.

Definition rate_limited_result : json :=
  JObj [("msg", JStr "result"); ("id", JStr "42");
        ("error", JObj [("error", JStr "too-many-requests");
                        ("details", JObj [("timeToReset", JInt 2000)])])].

Definition original_request : json := JObj [("rid", JStr "r1"); ("msg", JStr "hi")].

Lemma on_error_too_many_requests_witness :
  on_error (JStr TOO_MANY_REQUESTS_value) rate_limited_result original_request
  = mkOutcome [ESleep 2000; ESendMsg (JStr "r1") (JStr "hi")] false.
Proof.
  apply (on_error_too_many_requests rate_limited_result
           (JObj [("error", JStr "too-many-requests");
                  ("details", JObj [("timeToReset", JInt 2000)])])
           (JObj [("timeToReset", JInt 2000)])); reflexivity.
Defined.

(** C5: any other error kind makes [on_error] do nothing, and a
    [Result] carrying such an error fails its pending call (with the
    kind, the payload and the original request) and sends nothing. *)
Theorem other_errors_surface_without_retry :
  (forall errortype error_result recover,
      is_too_many errortype = false ->
      on_error errortype error_result recover = mkOutcome [] false) /\
  (forall (pending : gmap string json) (msg err kind req : json) (i : string),
      jget msg "id" = Some (JStr i) -> pending !! i = Some req ->
      jget msg "error" = Some err -> jget err "error" = Some kind ->
      is_too_many kind = false ->
      on_result pending msg = (delete i pending, [EResolveErr i kind msg req])).
Proof.
  assert (Hoe : forall errortype error_result recover,
             is_too_many errortype = false ->
             on_error errortype error_result recover = mkOutcome [] false).
  { intros et er rm H. unfold on_error. rewrite H. reflexivity. }
  split; [exact Hoe|].
  intros pending msg err kind req i Hi Hp He Hk Hn.
  unfold on_result, recv_result. rewrite Hi, Hp, He, Hk. simpl.
  rewrite Hoe by exact Hn. reflexivity.
Qed.

Lemma other_errors_surface_without_retry_witness :
  on_result (<["7" := original_request]> ∅)
    (JObj [("msg", JStr "result"); ("id", JStr "7");
           ("error", JObj [("error", JStr "error-not-allowed")])])
  = (∅, [EResolveErr "7" (JStr "error-not-allowed")
          (JObj [("msg", JStr "result"); ("id", JStr "7");
                 ("error", JObj [("error", JStr "error-not-allowed")])])
          original_request]).
Proof.
  rewrite (proj2 other_errors_surface_without_retry (<["7" := original_request]> ∅)
             (JObj [("msg", JStr "result"); ("id", JStr "7");
                    ("error", JObj [("error", JStr "error-not-allowed")])])
             (JObj [("error", JStr "error-not-allowed")])
             (JStr "error-not-allowed") original_request "7");
    [|reflexivity..].
  vm_compute. reflexivity.
Defined.

(* ================================================================== *)
(** * Further properties of [client.py] *)

(* ------------------------------------------------------------------ *)
(** ** What a fire pass runs, in general *)

Section Delivery.

Variable async : nat -> bool.
Variable body : nat -> list action.

(** The callback run by the job [j], given the closure cells. *)
Definition job_out (fr : list (option nat * json)) (j : job) : list (nat * json) :=
  match j with
  | JTask cb d => [(cb, d)]
  | JCallSoon f =>
      match fr !! f with
      | Some (Some cb, d) => if async cb then [] else [(cb, d)]
      | _ => []
      end
  end.

Lemma event_loop_jobs (f : nat) (d : json) (cbs : list nat) (cell : option nat) (q : list job) :
  event_loop async f d cbs cell q =
  (match last cbs with Some x => Some x | None => cell end,
   q ++ map (fun cb => if async cb then JTask cb d else JCallSoon f) cbs).
Proof.
  revert cell q. induction cbs as [|cb rest IH]; intros cell q; simpl.
  - rewrite app_nil_r. reflexivity.
  - destruct (async cb); rewrite IH, <- app_assoc; simpl;
      destruct rest as [|x rest']; try reflexivity;
      rewrite last_cons_cons;
      (destruct (last (x :: rest')) eqn:E; [reflexivity|
         apply last_None in E; discriminate]).
Qed.

Lemma run_job_effect (j : job) (st : EvState) :
  ready (run_job async body j st) = ready st /\
  frames (run_job async body j st) = frames st /\
  trace (run_job async body j st) = trace st ++ job_out (frames st) j.
Proof.
  destruct j as [cb d|f]; simpl; [auto|].
  destruct (frames st !! f) as [[[cb|] d]|]; simpl; try (rewrite app_nil_r; auto).
  destruct (async cb); simpl; [rewrite app_nil_r|]; auto.
Qed.

Lemma run_ready_jobs (js : list job) (fuel : nat) (st : EvState) :
  ready st = js -> (length js <= fuel)%nat ->
  ready (run_ready async body fuel st) = [] /\
  frames (run_ready async body fuel st) = frames st /\
  trace (run_ready async body fuel st) = trace st ++ flat_map (job_out (frames st)) js.
Proof.
  revert fuel st. induction js as [|j js IH]; intros fuel st Hr Hf.
  - destruct fuel; simpl; unfold pop; rewrite Hr; simpl; rewrite app_nil_r; auto.
  - destruct fuel as [|n]; simpl in Hf; [lia|]. simpl. unfold pop. rewrite Hr.
    set (st0 := {| callbacks := callbacks st; ready := js; frames := frames st; trace := trace st |}).
    destruct (run_job_effect j st0) as (R & F & T).
    destruct (IH n (run_job async body j st0)) as (R' & F' & T'); [exact R|lia|].
    split; [exact R'|]. rewrite F', T', F, T. simpl.
    split; [reflexivity|]. rewrite app_assoc. reflexivity.
Qed.

(** The callbacks a pass of [event(name, data)] runs, for listener list
    [cbs]: each coroutine function once, in its place; each plain
    callback is replaced by the last listener (nothing when that last
    listener is a coroutine function, whose coroutine is never awaited). *)
Definition pass_output (cbs : list nat) (d : json) : list (nat * json) :=
  flat_map (fun cb =>
    if async cb then [(cb, d)]
    else match last cbs with
         | Some l => if async l then [] else [(l, d)]
         | None => []
         end) cbs.

End Delivery.

Lemma pass_jobs_output (async : nat -> bool) (fr : list (option nat * json))
    (cbs : list nat) (d : json) :
  flat_map (job_out async (fr ++ [(match last cbs with Some x => Some x | None => None end, d)]))
    (map (fun cb => if async cb then JTask cb d else JCallSoon (length fr)) cbs)
  = pass_output async cbs d.
Proof.
  unfold pass_output. rewrite flat_map_concat_map, map_map, <- flat_map_concat_map.
  apply flat_map_ext. intros cb.
  destruct (async cb); simpl; [reflexivity|].
  rewrite list_lookup_middle by reflexivity.
  destruct (last cbs); reflexivity.
Qed.

(** A fire pass started on an idle loop runs exactly [pass_output] of
    the listeners registered when [event] is called, whatever their
    bodies do to the registry, and leaves the ready queue empty. *)
Theorem fire_pass_output (async : nat -> bool) (body : nat -> list action)
    (fuel : nat) (name : string) (d : json) (st : EvState) :
  ready st = [] -> (length (listeners (callbacks st) name) <= fuel)%nat ->
  ready (fire_pass async body fuel name d st) = [] /\
  trace (fire_pass async body fuel name d st)
  = trace st ++ pass_output async (listeners (callbacks st) name) d.
Proof.
  intros Hr Hf. unfold fire_pass, event.
  pose proof (fst_getitem (callbacks st) name) as Hg.
  destruct (cb_getitem (callbacks st) name) as [cbs reg]. simpl in Hg. subst cbs.
  rewrite event_loop_jobs, Hr. simpl.
  match goal with
  | |- context [run_ready _ _ fuel ?s] =>
      destruct (run_ready_jobs async body (ready s) fuel s eq_refl) as (R & _ & T)
  end.
  { simpl. rewrite length_map. exact Hf. }
  split; [exact R|]. rewrite T. simpl. f_equal.
  apply pass_jobs_output.
Qed.

Lemma flat_map_ext_in_map_pair (async : nat -> bool) (l : list nat) (d : json)
    (other : list (nat * json)) :
  (forall cb, In cb l -> async cb = true) ->
  flat_map (fun cb => if async cb then [(cb, d)] else other) l = map (fun cb => (cb, d)) l.
Proof.
  induction l as [|cb l IH]; intros Ha; simpl; [reflexivity|].
  rewrite (Ha cb (or_introl eq_refl)). simpl. f_equal.
  apply IH. intros y Hy. apply Ha. right. exact Hy.
Qed.

(** When every listener is a coroutine function, a pass runs each one
    exactly once, in registration order, with the payload. *)
Theorem fire_pass_coroutines_in_order (async : nat -> bool) (body : nat -> list action)
    (fuel : nat) (name : string) (d : json) (st : EvState) :
  ready st = [] -> (length (listeners (callbacks st) name) <= fuel)%nat ->
  (forall cb, In cb (listeners (callbacks st) name) -> async cb = true) ->
  trace (fire_pass async body fuel name d st)
  = trace st ++ map (fun cb => (cb, d)) (listeners (callbacks st) name).
Proof.
  intros Hr Hf Ha. rewrite (proj2 (fire_pass_output async body fuel name d st Hr Hf)).
  f_equal. unfold pass_output.
  set (l0 := listeners (callbacks st) name) in *. clearbody l0.
  apply flat_map_ext_in_map_pair. exact Ha.
Qed.

Definition all_async (_ : nat) : bool := true.

Lemma fire_pass_coroutines_in_order_witness :
  trace (fire_pass all_async no_actions 10 "x" (JInt 3) two_listeners)
  = [(5%nat, JInt 3); (6%nat, JInt 3)].
Proof.
  rewrite (fire_pass_coroutines_in_order all_async no_actions 10 "x" (JInt 3) two_listeners);
    [| reflexivity | vm_compute; lia | intros; reflexivity].
  vm_compute. reflexivity.
Defined.

(** When every listener is a plain function, a pass with [n] listeners
    runs the last registered one [n] times and no other. *)
Theorem fire_pass_plain_runs_last (async : nat -> bool) (body : nat -> list action)
    (fuel : nat) (name : string) (d : json) (st : EvState) (x : nat) :
  ready st = [] -> (length (listeners (callbacks st) name) <= fuel)%nat ->
  (forall cb, In cb (listeners (callbacks st) name) -> async cb = false) ->
  last (listeners (callbacks st) name) = Some x ->
  trace (fire_pass async body fuel name d st)
  = trace st ++ repeat (x, d) (length (listeners (callbacks st) name)).
Proof.
  intros Hr Hf Ha Hl. rewrite (proj2 (fire_pass_output async body fuel name d st Hr Hf)).
  f_equal. unfold pass_output. rewrite Hl.
  assert (Hx : async x = false).
  { apply Ha. apply list_elem_of_In. apply last_Some_elem_of. exact Hl. }
  rewrite Hx. clear Hl.
  set (l0 := listeners (callbacks st) name) in *. clearbody l0. clear Hf.
  revert Ha. induction l0 as [|cb l IH]; intros Ha; simpl; [reflexivity|].
  rewrite (Ha cb (or_introl eq_refl)). simpl. f_equal.
  apply IH. intros y Hy. apply Ha. right. exact Hy.
Qed.

Lemma fire_pass_plain_runs_last_witness :
  trace (fire_pass all_plain no_actions 10 "x" (JInt 3) two_listeners)
  = [(6%nat, JInt 3); (6%nat, JInt 3)].
Proof.
  rewrite (fire_pass_plain_runs_last all_plain no_actions 10 "x" (JInt 3) two_listeners 6);
    [| reflexivity | vm_compute; lia | intros; reflexivity | vm_compute; reflexivity].
  vm_compute. reflexivity.
Defined.

(** [event] on a name with no entry schedules nothing, runs nothing,
    and leaves an empty list under that name (the defaultdict lookup). *)
Theorem event_unregistered_name (async : nat -> bool) (name : string) (d : json) (st : EvState) :
  callbacks st !! name = None ->
  event async name d st
  = {| callbacks := <[name := []]> (callbacks st); ready := ready st;
       frames := frames st ++ [(None, d)]; trace := trace st |}.
Proof.
  intros H. unfold event, cb_getitem. rewrite H. reflexivity.
Qed.

Lemma event_unregistered_name_witness :
  ready (event all_plain "logged_in" JNull EvState_init) = [].
Proof.
  rewrite (event_unregistered_name all_plain "logged_in" JNull EvState_init); reflexivity.
Defined.

(* ------------------------------------------------------------------ *)
(** ** [add_cb] and [del_cb] together *)

Lemma getitem_present (reg : registry) (name : string) (l : list nat) :
  reg !! name = Some l -> cb_getitem reg name = (l, reg).
Proof. unfold cb_getitem. intros ->. reflexivity. Qed.

Lemma add_cb_lookup (reg : registry) (name : string) (cb : nat) :
  add_cb reg name cb = <[name := listeners reg name ++ [cb]]> reg.
Proof.
  unfold add_cb, cb_getitem, listeners. destruct (reg !! name); simpl; [reflexivity|].
  rewrite insert_insert_eq. reflexivity.
Qed.

(** [add_cb] appends the callback at the end of the list under [name]
    (creating it if needed) and leaves every other name as it was. *)
Theorem add_cb_appends (reg : registry) (name : string) (cb : nat) :
  listeners (add_cb reg name cb) name = listeners reg name ++ [cb] /\
  (forall m, m <> name -> listeners (add_cb reg name cb) m = listeners reg m).
Proof.
  rewrite add_cb_lookup. split; [apply listeners_insert_eq|].
  intros m Hm. apply listeners_insert_ne. exact Hm.
Qed.

Lemma add_cb_appends_witness :
  listeners (add_cb callbacks_init "x" 7) "added" = [0%nat].
Proof. rewrite (proj2 (add_cb_appends callbacks_init "x" 7) "added"); [reflexivity|discriminate]. Defined.

Lemma list_remove_app_absent (x : nat) (l r : list nat) :
  ~ In x l -> list_remove x (l ++ x :: r) = Some (l ++ r).
Proof.
  induction l as [|y l IH]; simpl; intros H.
  - rewrite Nat.eqb_refl. reflexivity.
  - destruct (Nat.eqb x y) eqn:E.
    + apply Nat.eqb_eq in E. subst. exfalso. auto.
    + rewrite IH; auto.
Qed.

(** Removing a callback right after adding it, when it was not already
    registered under that name, returns [True] and restores every
    listener list. *)
Theorem del_cb_after_add_cb (reg : registry) (name : string) (cb : nat) :
  ~ In cb (listeners reg name) ->
  fst (del_cb (add_cb reg name cb) name cb) = true /\
  (forall m, listeners (snd (del_cb (add_cb reg name cb) name cb)) m = listeners reg m).
Proof.
  intros Hn. unfold del_cb.
  rewrite (getitem_present _ _ (listeners reg name ++ [cb])) by
    (rewrite add_cb_lookup; apply lookup_insert_eq).
  rewrite list_remove_app_absent by exact Hn. rewrite app_nil_r. simpl.
  split; [reflexivity|]. intros m.
  destruct (decide (m = name)) as [->|Hm].
  - apply listeners_insert_eq.
  - rewrite listeners_insert_ne by exact Hm. apply (proj2 (add_cb_appends reg name cb)), Hm.
Qed.

Lemma del_cb_after_add_cb_witness :
  listeners (snd (del_cb (add_cb callbacks_init "added" 7) "added" 7)) "added" = [0%nat].
Proof.
  rewrite (proj2 (del_cb_after_add_cb callbacks_init "added" 7 ltac:(vm_compute; intros [H|[]]; discriminate)) "added").
  reflexivity.
Defined.

(** [del_cb] on a name never used returns [False] and, through the
    defaultdict, leaves an empty list stored under that name. *)
Theorem del_cb_unknown_name (reg : registry) (name : string) (cb : nat) :
  reg !! name = None -> del_cb reg name cb = (false, <[name := []]> reg).
Proof. intros H. unfold del_cb, cb_getitem. rewrite H. reflexivity. Qed.

Lemma del_cb_unknown_name_witness :
  del_cb callbacks_init "room_message" 3 = (false, <["room_message" := []]> callbacks_init).
Proof. apply del_cb_unknown_name. vm_compute. reflexivity. Defined.

(* ------------------------------------------------------------------ *)
(** ** [handler_loop]: arrival order *)






(** Once the loop finds the flag set at its test it returns, leaving
    the queue (real messages as well as sentinels) untouched. *)
Theorem handler_loop_stops_at_check (c : Client) (fuel : nat) :
  c_stop c = true -> (1 <= fuel)%nat -> run_loop fuel (LCheck, c) = (LDone, c).
Proof.
  intros Hs Hf. destruct fuel as [|n]; [lia|]. simpl. rewrite Hs.
  destruct n; reflexivity.
Qed.

Lemma handler_loop_stops_at_check_witness :
  run_loop 3 (LCheck, put_all [JObj [("msg", JStr "ping")]] (set_stop (JBool true) Client_init))
  = (LDone, put_all [JObj [("msg", JStr "ping")]] (set_stop (JBool true) Client_init)).
Proof. apply handler_loop_stops_at_check; [reflexivity|lia]. Defined.

(* ------------------------------------------------------------------ *)
(** ** [on_too_many_requests] and [login] on incomplete input *)

(** Whatever the error result and recover message, the retry path
    either fails before sleeping, or sleeps and then fails, or sleeps
    and sends one message: it never sends without sleeping first, never
    sends twice, and sends exactly when it does not raise. *)
Theorem on_too_many_requests_shape (error_result recover : json) :
  on_too_many_requests error_result recover = mkOutcome [] true \/
  (exists t, on_too_many_requests error_result recover = mkOutcome [ESleep t] true) \/
  (exists t rid text,
      on_too_many_requests error_result recover = mkOutcome [ESleep t; ESendMsg rid text] false).
Proof.
  unfold on_too_many_requests.
  destruct (jget error_result "error") as [e|]; [|auto].
  destruct (jget e "details") as [d|]; [|auto].
  destruct (jget d "timeToReset") as [ttr|]; [|auto].
  destruct (py_int ttr) as [t|]; [|auto].
  destruct (jget recover "rid") as [rid|]; [|eauto].
  destruct (jget recover "msg") as [text|]; eauto 6.
Qed.

(** A login result with a token but no ["expires"] entry overwrites the
    stored token and then raises [KeyError]: [token_expires] and
    [user_id] keep their old values. *)
Theorem login_store_missing_expires (d : ClientData) (res t : json) :
  jget res "token" = Some t -> jget res "expires" = None ->
  login_store d res = (set_token d t, true).
Proof. intros Ht He. unfold login_store. rewrite Ht, He. reflexivity. Qed.

Lemma login_store_missing_expires_witness :
  login_store (ClientData_init "wss://chat" "alice" "pw") (JObj [("token", JStr "tok")])
  = (set_token (ClientData_init "wss://chat" "alice" "pw") (JStr "tok"), true).
Proof. apply login_store_missing_expires; reflexivity. Defined.

Lemma fire_pass_output_witness :
  trace (fire_pass (fun n => Nat.eqb n 5) no_actions 10 "x" (JInt 4) two_listeners)
  = [(5%nat, JInt 4); (6%nat, JInt 4)].
Proof.
  rewrite (proj2 (fire_pass_output (fun n => Nat.eqb n 5) no_actions 10 "x" (JInt 4)
                    two_listeners eq_refl ltac:(vm_compute; lia))).
  vm_compute. reflexivity.
Defined.
